(** * harmonics-explorer: the application reducer (src/app/harmonics.ts)

    A shallow embedding of the reducer that holds the state of the additive
    synthesis explorer: a fundamental frequency, thirteen harmonic partials
    with their sampled sine curves, a master gain and the combined curve.

    JavaScript numbers are IEEE 754 binary64 values; they are modelled by
    Rocq's primitive floats, whose operations round exactly as JavaScript's
    do.  Numbers that the program only uses as list positions or as the
    bounds of a [Range] are integers ([Z], [nat]) and are converted where
    they enter floating-point arithmetic.  Immutable.js lists are [list]s and
    Immutable.js records are Rocq records; [merge] on a record is written as
    one function per field that is merged. *)

From Stdlib Require Import Floats ZArith String Bool Lia.
From stdpp Require Import base list.

Set Warnings "-inexact-float".

Open Scope Z_scope.

(** ** JavaScript values *)

Definition number := float.

(** An integer (below 2^63 in absolute value) as the JavaScript number of
    the same value. *)
Definition num_of_Z (z : Z) : number :=
  if z <? 0 then (- PrimFloat.of_uint63 (Uint63.of_Z (- z)))%float
  else PrimFloat.of_uint63 (Uint63.of_Z z).
Definition num_of_nat (n : nat) : number := num_of_Z (Z.of_nat n).

(** The errors the reducer can raise.  The only one is the [TypeError] that
    JavaScript raises when a property of [undefined] is read. *)
Inductive JsError : Set := TypeError.

(** How a call ends: with a value, with a raised error, or outside the typed
    program (an action whose payload does not have the shape that the
    TypeScript signature of its handler demands). *)
Inductive Completion (A : Type) : Type :=
| Returned (a : A)
| Threw (e : JsError)
| IllTyped.
Arguments Returned {A} a.
Arguments Threw {A} e.
Arguments IllTyped {A}.

(** ** Records (./partial and ./app-state) *)

Record PartialRecord : Type := mkPartial {
  frequency : number;
  amplitude : number;
  data : list number
}.

Record AppStateRecord : Type := mkAppState {
  playing : bool;
  masterGain : number;
  fundamentalFrequency : number;
  partials : list PartialRecord;
  totalCurve : list number
}.

(** [partial.merge({frequency})], [partial.merge({amplitude})] and
    [partial.merge({data})]. *)
Definition merge_frequency (p : PartialRecord) (frequency' : number) : PartialRecord :=
  mkPartial frequency' (amplitude p) (data p).
Definition merge_amplitude (p : PartialRecord) (amplitude' : number) : PartialRecord :=
  mkPartial (frequency p) amplitude' (data p).
Definition merge_data (p : PartialRecord) (data' : list number) : PartialRecord :=
  mkPartial (frequency p) (amplitude p) data'.

(** [state.merge({playing})], [state.merge({masterGain})],
    [state.merge({fundamentalFrequency})], [state.merge({totalCurve})] and
    the replacement of the [partials] field done by [update] and [updateIn]. *)
Definition merge_playing (s : AppStateRecord) (playing' : bool) : AppStateRecord :=
  mkAppState playing' (masterGain s) (fundamentalFrequency s) (partials s) (totalCurve s).
Definition merge_masterGain (s : AppStateRecord) (masterGain' : number) : AppStateRecord :=
  mkAppState (playing s) masterGain' (fundamentalFrequency s) (partials s) (totalCurve s).
Definition merge_fundamentalFrequency (s : AppStateRecord) (f : number) : AppStateRecord :=
  mkAppState (playing s) (masterGain s) f (partials s) (totalCurve s).
Definition merge_totalCurve (s : AppStateRecord) (c : list number) : AppStateRecord :=
  mkAppState (playing s) (masterGain s) (fundamentalFrequency s) (partials s) c.
Definition set_partials (s : AppStateRecord) (ps : list PartialRecord) : AppStateRecord :=
  mkAppState (playing s) (masterGain s) (fundamentalFrequency s) ps (totalCurve s).

(** ** Actions *)

Definition START : string := "START".
Definition STOP : string := "STOP".
Definition CHANGE_FUNDAMENTAL_FREQUENCY : string := "CHANGE_FUNDAMENTAL_FREQUENCY".
Definition CHANGE_AMPLITUDE : string := "CHANGE_AMPLITUDE".
Definition CHANGE_MASTER_GAIN : string := "CHANGE_TOTAL_GAIN".
Definition SWITCH_TO_PRESET : string := "SWITCH_TO_PRESET".

(** The payload of an action: absent, a number, or the object
    [{partial, amplitude}] of CHANGE_AMPLITUDE. *)
Inductive Payload : Type :=
| NoPayload
| NumberPayload (n : number)
| AmplitudePayload (partial : Z) (amplitude : number).

Record Action : Type := mkAction {
  type : string;
  payload : Payload
}.

(** ** Constants *)

Definition HARMONICS_COUNT : Z := 13.
Definition SAMPLE_COUNT : number := 650%float.
Definition SAMPLE_RATE : number := 44100%float.

(** ** Immutable.js collections *)

(** [Range(start, end)]: the numbers from [start] up to [end], [end] left out. *)
Definition Range (start end_ : Z) : list number :=
  (fun i : nat => num_of_Z (start + Z.of_nat i)) <$> seq 0 (Z.to_nat (end_ - start)).

(** A negative index counts back from the end of a [List]. *)
Definition wrapIndex {A} (l : list A) (index : Z) : Z :=
  if index <? 0 then Z.of_nat (length l) + index else index.

(** [list.get(index)]: the entry, or nothing when the wrapped index is not a
    position of the list. *)
Definition List_get {A} (l : list A) (index : Z) : option A :=
  let i := wrapIndex l index in
  if (0 <=? i) && (i <? Z.of_nat (length l)) then l !! Z.to_nat i else None.

(** [list.set(index, value)] at a position that [get] finds. *)
Definition List_set {A} (l : list A) (index : Z) (value : A) : list A :=
  <[Z.to_nat (wrapIndex l index) := value]> l.

(** [Completion] is a functor: the rest of a computation runs on a returned
    value and is skipped after an error. *)
Definition Completion_map {A B} (f : A -> B) (c : Completion A) : Completion B :=
  match c with
  | Returned a => Returned (f a)
  | Threw e => Threw e
  | IllTyped => IllTyped
  end.

(** Running one more step after a completion: an error ends the run. *)
Definition Completion_bind {A B} (c : Completion A) (f : A -> Completion B)
    : Completion B :=
  match c with
  | Returned a => f a
  | Threw e => Threw e
  | IllTyped => IllTyped
  end.

(** [state.updateIn(['partials', index], updater)].  The entry is looked up
    with [get] and the updater's result is [set] at the same index.  When
    the list has no such entry, Immutable.js hands [undefined] to the
    updater; the updater of this program reads a property of its argument
    ([partial.merge]) before anything else, which raises a TypeError, and
    nothing is written. *)
Definition updateIn_partials (state : AppStateRecord) (index : Z)
    (updater : PartialRecord -> PartialRecord) : Completion AppStateRecord :=
  match List_get (partials state) index with
  | Some p =>
      Returned (set_partials state (List_set (partials state) index (updater p)))
  | None => Threw TypeError
  end.

(** ** The curve combiner of ./curves *)

(** Modelled from the spec: the common length L of the curves handed to the
    combiner (4.2: every curve has the same length; no curves, length 0). *)
Definition curveLength (curves : list (list number)) : nat :=
  match curves with
  | [] => 0%nat
  | curve :: _ => length curve
  end.

(** Modelled from the spec: sample [i] of the unscaled partial sum, the sum
    over the curves of their sample [i] (4.2), added up in list order. *)
Definition sampleSum (curves : list (list number)) (i : nat) : number :=
  foldl (fun acc curve => (acc + default 0 (curve !! i))%float) 0%float curves.

(** Modelled from the spec: the unscaled partial sum, for i in [0, L). *)
Definition partialSum (curves : list (list number)) : list number :=
  sampleSum curves <$> seq 0 (curveLength curves).

(** Modelled from the spec: [combineCurves] is defined in ./curves, which is
    not among the sources; only its call in [updateTotalCurve] is.  The spec
    (4.2) gives its contract: for curves of one length L, sample i of the
    result is the gain times the sum over the curves of their sample i, for
    i in [0, L), and an empty collection gives the empty sequence.  Only the
    scaling clause of the master-gain property is settled against this
    model; every other property holds for any combiner. *)
Definition combineCurves_spec (curves : list (list number)) (gain : number) : list number :=
  (fun u => (gain * u)%float) <$> partialSum curves.

(** The action types that the reducer's [switch] has a case for. *)
Definition recognizedTypes : list string :=
  [START; STOP; CHANGE_AMPLITUDE; CHANGE_MASTER_GAIN; CHANGE_FUNDAMENTAL_FREQUENCY].

(** ** A computable instance *)

(** Primitive floats have no sine, so the reducer is run on concrete inputs
    with a curve generator of the sampler's signature whose sample i is
    amplitude * (frequency * i / sampleRate), over the first four samples. *)
Definition rampCurve (frequency' amplitude' sampleCount sampleRate : number) : list number :=
  (fun i : nat => (amplitude' * (frequency' * num_of_nat i / sampleRate))%float)
  <$> seq 0 4.

Section Reducer.

(** [calculateSineCurve] and [combineCurves] are imported from ./curves, and
    the record factories from ./partial and ./app-state fill the fields that
    their argument leaves out with defaults declared there.  The reducer is
    modelled over all of them. *)
Variable calculateSineCurve : number -> number -> number -> number -> list number.
Variable combineCurves : list (list number) -> number -> list number.
Variable partialDefaultData : list number.
Variable appStateDefaultTotalCurve : list number.

Definition partialFactory (frequency' amplitude' : number) : PartialRecord :=
  mkPartial frequency' amplitude' partialDefaultData.

Definition appStateFactory (playing' : bool) (masterGain' fundamentalFrequency' : number)
    (partials' : list PartialRecord) : AppStateRecord :=
  mkAppState playing' masterGain' fundamentalFrequency' partials' appStateDefaultTotalCurve.

(** Initial Partials, invoked for each harmonic from makeInitialState. *)
Definition makePartial (fundamentalFrequency' partial : number) : PartialRecord :=
  partialFactory
    (fundamentalFrequency' * partial)%float
    (if PrimFloat.eqb partial 1 then 1 else 0)%float.

(** Update the sine curve for a partial. *)
Definition updateCurve (partial : PartialRecord) : PartialRecord :=
  let data' := calculateSineCurve (frequency partial) (amplitude partial)
                 SAMPLE_COUNT SAMPLE_RATE in
  merge_data partial data'.

(** Update the curve data for the combination of all the partials. *)
Definition updateTotalCurve (state : AppStateRecord) : AppStateRecord :=
  let totalCurve' := combineCurves (data <$> partials state) (masterGain state) in
  merge_totalCurve state totalCurve'.

(** Initial AppState, used to bootstrap the reducer. *)
Definition makeInitialState : AppStateRecord :=
  let fundamentalFrequency' := 261.63%float in
  let partials' :=
    updateCurve <$>
      ((fun partialNumber => makePartial fundamentalFrequency' partialNumber) <$>
         Range 1 (HARMONICS_COUNT + 1)) in
  updateTotalCurve (appStateFactory false 0.5%float fundamentalFrequency' partials').

(** Start (unmute) / Stop (mute). *)
Definition setPlayState (state : AppStateRecord) (playing' : bool) : AppStateRecord :=
  merge_playing state playing'.

(** Adjust the amplitude for a particular partial and also calculate the
    changed sine curve for it. *)
Definition changeAmplitudeForPartial (partial : PartialRecord) (amplitude' : number)
    : PartialRecord :=
  updateCurve (merge_amplitude partial amplitude').

(** Change the amplitude for a particular partial.  Will also recalculate
    the sine curve for that partial as well as the combined total curve. *)
Definition changeAmplitude (state : AppStateRecord) (partialNumber : Z)
    (amplitude' : number) : Completion AppStateRecord :=
  Completion_map updateTotalCurve
    (updateIn_partials state partialNumber
       (fun p => changeAmplitudeForPartial p amplitude')).

(** When the fundamental frequency has changed, recalculate the frequencies
    for all the partials and update their curves accordingly. *)
Definition setPartialFrequencies (partials' : list PartialRecord)
    (fundamentalFrequency' : number) : list PartialRecord :=
  imap (fun (index : nat) (partial : PartialRecord) =>
          let frequency' := (fundamentalFrequency' * (num_of_nat index + 1))%float in
          updateCurve (merge_frequency partial frequency'))
       partials'.

(** Change the fundamental frequency of the system. *)
Definition changeFundamentalFrequency (state : AppStateRecord)
    (fundamentalFrequency' : number) : AppStateRecord :=
  let state1 := merge_fundamentalFrequency state fundamentalFrequency' in
  updateTotalCurve
    (set_partials state1 (setPartialFrequencies (partials state1) fundamentalFrequency')).

(** Change the master gain of the total curve. *)
Definition changeMasterGain (state : AppStateRecord) (masterGain' : number)
    : AppStateRecord :=
  updateTotalCurve (merge_masterGain state masterGain').

(** The reducer function.  An absent state ([None], JavaScript's
    [undefined]) takes the default [makeInitialState()]; the [switch]
    compares [action.type] with the case labels in their order. *)
Definition harmonicsReducer (state : option AppStateRecord) (action : Action)
    : Completion AppStateRecord :=
  let state := default makeInitialState state in
  if String.eqb (type action) START then
    Returned (setPlayState state true)
  else if String.eqb (type action) STOP then
    Returned (setPlayState state false)
  else if String.eqb (type action) CHANGE_AMPLITUDE then
    match payload action with
    | AmplitudePayload partial amplitude' => changeAmplitude state partial amplitude'
    | NoPayload => Threw TypeError
    | NumberPayload _ => IllTyped
    end
  else if String.eqb (type action) CHANGE_MASTER_GAIN then
    match payload action with
    | NumberPayload masterGain' => Returned (changeMasterGain state masterGain')
    | _ => IllTyped
    end
  else if String.eqb (type action) CHANGE_FUNDAMENTAL_FREQUENCY then
    match payload action with
    | NumberPayload fundamentalFrequency' =>
        Returned (changeFundamentalFrequency state fundamentalFrequency')
    | _ => IllTyped
    end
  else
    Returned state.

(** The store hands the state that the reducer returned to the reducer
    again with the next action; an error raised by one call ends the run. *)
Definition dispatch (c : Completion AppStateRecord) (a : Action)
    : Completion AppStateRecord :=
  Completion_bind c (fun s => harmonicsReducer (Some s) a).

(** ** Reachable states and the consistency invariant *)

(** A partial at position [i] of a state with fundamental frequency [f] is
    consistent when its frequency is [f * (i + 1)] (evaluated as JavaScript
    does) and its curve is the sampler's for its frequency and amplitude. *)
Definition partial_consistent (f : number) (i : nat) (p : PartialRecord) : Prop :=
  frequency p = (f * (num_of_nat i + 1))%float /\
  data p = calculateSineCurve (frequency p) (amplitude p) 650%float 44100%float.

Definition consistent (s : AppStateRecord) : Prop :=
  (forall (i : nat) (p : PartialRecord),
      partials s !! i = Some p -> partial_consistent (fundamentalFrequency s) i p) /\
  totalCurve s = combineCurves (data <$> partials s) (masterGain s).

(** The mutations that reachability ranges over: any action, except that a
    CHANGE_AMPLITUDE carries an index of the partial list, [0 <= k < 13]. *)
Definition inRangeMutation (a : Action) : Prop :=
  type a = CHANGE_AMPLITUDE ->
  exists (k : Z) (amp : number),
    payload a = AmplitudePayload k amp /\ 0 <= k < HARMONICS_COUNT.

Inductive Reachable : AppStateRecord -> Prop :=
| Reachable_init : Reachable makeInitialState
| Reachable_step (s : AppStateRecord) (a : Action) (s' : AppStateRecord) :
    Reachable s ->
    inRangeMutation a ->
    harmonicsReducer (Some s) a = Returned s' ->
    Reachable s'.

(** ** The initial state *)

(** The thirteen partials of the initial state, written out. *)
Lemma makeInitialState_partials :
  partials makeInitialState =
    (fun i : nat =>
       let f := (261.63 * (num_of_nat i + 1))%float in
       let a := if Nat.eqb i 0 then 1%float else 0%float in
       mkPartial f a (calculateSineCurve f a 650%float 44100%float))
    <$> seq 0 13.
Proof. reflexivity. Qed.

(** C2: makeInitialState() is not playing, has master gain 0.5 and
    fundamental frequency 261.63, and has exactly 13 partials; the partial
    at index i has frequency 261.63*(i+1), amplitude 1 at index 0 and 0 at
    indices 1 to 12, and the sampler's curve for that frequency and
    amplitude; totalCurve is the combiner's curve for the partials' data and
    the gain 0.5. *)
Theorem makeInitialState_spec :
  playing makeInitialState = false /\
  masterGain makeInitialState = 0.5%float /\
  fundamentalFrequency makeInitialState = 261.63%float /\
  length (partials makeInitialState) = 13%nat /\
  partials makeInitialState =
    (fun i : nat =>
       let f := (261.63 * (num_of_nat i + 1))%float in
       let a := if Nat.eqb i 0 then 1%float else 0%float in
       mkPartial f a (calculateSineCurve f a 650%float 44100%float))
    <$> seq 0 13 /\
  totalCurve makeInitialState =
    combineCurves (data <$> partials makeInitialState) 0.5%float.
Proof.
  split; [reflexivity|]. split; [reflexivity|]. split; [reflexivity|].
  split; [rewrite makeInitialState_partials; reflexivity|].
  split; [apply makeInitialState_partials|].
  reflexivity.
Qed.

(** ** The reducer, one mutation kind at a time *)

Lemma reduce_START (s : AppStateRecord) (pl : Payload) :
  harmonicsReducer (Some s) (mkAction START pl) = Returned (setPlayState s true).
Proof. reflexivity. Qed.

Lemma reduce_STOP (s : AppStateRecord) (pl : Payload) :
  harmonicsReducer (Some s) (mkAction STOP pl) = Returned (setPlayState s false).
Proof. reflexivity. Qed.

Lemma reduce_CHANGE_AMPLITUDE (s : AppStateRecord) (k : Z) (a : number) :
  harmonicsReducer (Some s) (mkAction CHANGE_AMPLITUDE (AmplitudePayload k a))
  = changeAmplitude s k a.
Proof. reflexivity. Qed.

Lemma reduce_CHANGE_MASTER_GAIN (s : AppStateRecord) (g : number) :
  harmonicsReducer (Some s) (mkAction CHANGE_MASTER_GAIN (NumberPayload g))
  = Returned (changeMasterGain s g).
Proof. reflexivity. Qed.

Lemma reduce_CHANGE_FUNDAMENTAL_FREQUENCY (s : AppStateRecord) (f : number) :
  harmonicsReducer (Some s) (mkAction CHANGE_FUNDAMENTAL_FREQUENCY (NumberPayload f))
  = Returned (changeFundamentalFrequency s f).
Proof. reflexivity. Qed.

Lemma reduce_default (s : AppStateRecord) (a : Action) :
  type a <> START -> type a <> STOP -> type a <> CHANGE_AMPLITUDE ->
  type a <> CHANGE_MASTER_GAIN -> type a <> CHANGE_FUNDAMENTAL_FREQUENCY ->
  harmonicsReducer (Some s) a = Returned s.
Proof.
  intros H1 H2 H3 H4 H5. unfold harmonicsReducer.
  apply String.eqb_neq in H1, H2, H3, H4, H5.
  rewrite H1, H2, H3, H4, H5. reflexivity.
Qed.

(** Every returning step of the reducer is one of the six transitions. *)
Lemma reduce_Returned_inv (s s' : AppStateRecord) (a : Action) :
  harmonicsReducer (Some s) a = Returned s' ->
  s' = setPlayState s true \/
  s' = setPlayState s false \/
  (exists k amp, changeAmplitude s k amp = Returned s') \/
  (exists g, s' = changeMasterGain s g) \/
  (exists f, s' = changeFundamentalFrequency s f) \/
  s' = s.
Proof.
  unfold harmonicsReducer; simpl.
  destruct (String.eqb (type a) START); [intros [= <-]; tauto|].
  destruct (String.eqb (type a) STOP); [intros [= <-]; tauto|].
  destruct (String.eqb (type a) CHANGE_AMPLITUDE).
  { destruct (payload a) as [|n|k amp]; try discriminate.
    intros H. right; right; left. eauto. }
  destruct (String.eqb (type a) CHANGE_MASTER_GAIN).
  { destruct (payload a) as [|g|]; try discriminate.
    intros [= <-]. right; right; right; left. eauto. }
  destruct (String.eqb (type a) CHANGE_FUNDAMENTAL_FREQUENCY).
  { destruct (payload a) as [|f|]; try discriminate.
    intros [= <-]. do 4 right; left. eauto. }
  intros [= <-]. tauto.
Qed.

(** ** Immutable.js list access *)

Lemma List_get_Some {A} (l : list A) (k : Z) (x : A) :
  List_get l k = Some x ->
  (Z.to_nat (wrapIndex l k) < length l)%nat /\ l !! Z.to_nat (wrapIndex l k) = Some x.
Proof.
  unfold List_get; cbv zeta.
  destruct (0 <=? wrapIndex l k) eqn:Hlo; simpl; [|discriminate].
  destruct (wrapIndex l k <? Z.of_nat (length l)) eqn:Hhi; [|discriminate].
  intros H. split; [|exact H].
  apply Z.leb_le in Hlo. apply Z.ltb_lt in Hhi. lia.
Qed.

Lemma List_get_in_range {A} (l : list A) (k : Z) :
  0 <= k < Z.of_nat (length l) -> List_get l k = l !! Z.to_nat k.
Proof.
  intros [Hlo Hhi]. unfold List_get, wrapIndex.
  destruct (k <? 0) eqn:Hneg; [apply Z.ltb_lt in Hneg; lia|].
  cbv zeta.
  apply Z.leb_le in Hlo. apply Z.ltb_lt in Hhi. rewrite Hlo, Hhi. reflexivity.
Qed.

Lemma List_get_negative {A} (l : list A) (k : Z) :
  - Z.of_nat (length l) <= k < 0 ->
  List_get l k = List_get l (Z.of_nat (length l) + k) /\
  List_set l k = List_set l (Z.of_nat (length l) + k).
Proof.
  intros [Hlo Hhi]. unfold List_set, List_get, wrapIndex.
  destruct (k <? 0) eqn:Hneg; [|apply Z.ltb_ge in Hneg; lia].
  destruct (Z.of_nat (length l) + k <? 0) eqn:Hneg'; [apply Z.ltb_lt in Hneg'; lia|].
  split; reflexivity.
Qed.

Lemma List_get_out_of_range {A} (l : list A) (k : Z) :
  k < - Z.of_nat (length l) \/ Z.of_nat (length l) <= k -> List_get l k = None.
Proof.
  intros H. unfold List_get, wrapIndex. cbv zeta.
  destruct (k <? 0) eqn:Hneg.
  - apply Z.ltb_lt in Hneg.
    destruct (0 <=? Z.of_nat (length l) + k) eqn:Hlo; [|reflexivity].
    apply Z.leb_le in Hlo. lia.
  - apply Z.ltb_ge in Hneg.
    destruct (k <? Z.of_nat (length l)) eqn:Hhi.
    + apply Z.ltb_lt in Hhi. lia.
    + rewrite andb_false_r. reflexivity.
Qed.

Lemma List_set_in_range {A} (l : list A) (k : Z) (x : A) :
  0 <= k -> List_set l k x = <[Z.to_nat k := x]> l.
Proof.
  intros Hlo. unfold List_set, wrapIndex.
  destruct (k <? 0) eqn:Hneg; [apply Z.ltb_lt in Hneg; lia|reflexivity].
Qed.

(** [changeAmplitude] at a position of the list. *)
Lemma changeAmplitude_in_range (s : AppStateRecord) (k : nat) (a : number) (p : PartialRecord) :
  partials s !! k = Some p ->
  changeAmplitude s (Z.of_nat k) a =
  Returned (updateTotalCurve
    (set_partials s (<[k := changeAmplitudeForPartial p a]> (partials s)))).
Proof.
  intros Hp. unfold changeAmplitude, updateIn_partials.
  assert (Hk : (k < length (partials s))%nat) by (eapply lookup_lt_Some; eauto).
  rewrite List_get_in_range by lia.
  rewrite Nat2Z.id, Hp, List_set_in_range by lia.
  rewrite Nat2Z.id. reflexivity.
Qed.

(** ** Play state *)

(** C7: START sets playing to true and STOP sets it to false; masterGain,
    fundamentalFrequency, every partial and totalCurve are the old state's
    own values, whatever they are: no curve is recomputed. *)
Theorem setPlayState_frame (s : AppStateRecord) (pl : Payload) :
  (exists s',
      harmonicsReducer (Some s) (mkAction START pl) = Returned s' /\
      playing s' = true /\
      masterGain s' = masterGain s /\
      fundamentalFrequency s' = fundamentalFrequency s /\
      partials s' = partials s /\
      totalCurve s' = totalCurve s) /\
  (exists s',
      harmonicsReducer (Some s) (mkAction STOP pl) = Returned s' /\
      playing s' = false /\
      masterGain s' = masterGain s /\
      fundamentalFrequency s' = fundamentalFrequency s /\
      partials s' = partials s /\
      totalCurve s' = totalCurve s).
Proof.
  split.
  - exists (setPlayState s true). rewrite reduce_START. repeat split.
  - exists (setPlayState s false). rewrite reduce_STOP. repeat split.
Qed.

(** ** Unrecognized mutations *)

(** C8: a mutation whose type is none of START, STOP, CHANGE_AMPLITUDE,
    CHANGE_FUNDAMENTAL_FREQUENCY and CHANGE_MASTER_GAIN leaves the state as
    it is; the reducer returns and raises nothing. *)
Theorem unrecognized_identity (s : AppStateRecord) (a : Action) :
  ~ In (type a) recognizedTypes ->
  harmonicsReducer (Some s) a = Returned s.
Proof.
  intros Hnot. apply reduce_default; intros Heq; apply Hnot; rewrite Heq;
    unfold recognizedTypes; simpl; tauto.
Qed.

(** C10: SWITCH_TO_PRESET is an action type of its own, different from the
    five the reducer handles, so a SWITCH_TO_PRESET mutation takes the
    default branch and the state is returned unchanged. *)
Theorem SWITCH_TO_PRESET_unhandled (s : AppStateRecord) (pl : Payload) :
  ~ In SWITCH_TO_PRESET recognizedTypes /\
  harmonicsReducer (Some s) (mkAction SWITCH_TO_PRESET pl) = Returned s.
Proof.
  split.
  - unfold recognizedTypes. simpl. intros H.
    repeat (destruct H as [H|H]; [discriminate H|]). exact H.
  - apply reduce_default; discriminate.
Qed.

(** ** Changing the fundamental frequency *)

Lemma setPartialFrequencies_lookup (ps : list PartialRecord) (f : number) (i : nat) :
  setPartialFrequencies ps f !! i =
  (fun p => let fr := (f * (num_of_nat i + 1))%float in
            mkPartial fr (amplitude p)
              (calculateSineCurve fr (amplitude p) SAMPLE_COUNT SAMPLE_RATE))
  <$> ps !! i.
Proof.
  unfold setPartialFrequencies. rewrite list_lookup_imap. reflexivity.
Qed.

(** C3: CHANGE_FUNDAMENTAL_FREQUENCY(f) sets fundamentalFrequency to f and
    replaces the partial at index i by one with frequency f*(i+1), the old
    amplitude and the curve sampled at the new frequency; the list keeps its
    length and order; totalCurve is recombined from the new partials and the
    unchanged masterGain.  For f = 440 the partials at indices 0, 1 and 12
    get the frequencies 440, 880 and 5720. *)
Theorem changeFundamentalFrequency_spec (s : AppStateRecord) (f : number) :
  exists s',
    harmonicsReducer (Some s) (mkAction CHANGE_FUNDAMENTAL_FREQUENCY (NumberPayload f))
      = Returned s' /\
    fundamentalFrequency s' = f /\
    playing s' = playing s /\
    masterGain s' = masterGain s /\
    length (partials s') = length (partials s) /\
    (forall (i : nat) (p : PartialRecord),
        partials s !! i = Some p ->
        exists p',
          partials s' !! i = Some p' /\
          frequency p' = (f * (num_of_nat i + 1))%float /\
          amplitude p' = amplitude p /\
          data p' = calculateSineCurve (frequency p') (amplitude p') 650%float 44100%float) /\
    totalCurve s' = combineCurves (data <$> partials s') (masterGain s) /\
    (f = 440%float ->
     forall p' : PartialRecord,
       (partials s' !! 0%nat = Some p' -> frequency p' = 440%float) /\
       (partials s' !! 1%nat = Some p' -> frequency p' = 880%float) /\
       (partials s' !! 12%nat = Some p' -> frequency p' = 5720%float)).
Proof.
  exists (changeFundamentalFrequency s f).
  rewrite reduce_CHANGE_FUNDAMENTAL_FREQUENCY.
  split; [reflexivity|]. split; [reflexivity|]. split; [reflexivity|].
  split; [reflexivity|].
  split; [apply length_imap|].
  split.
  { intros i p Hp. eexists. split.
    - simpl. rewrite setPartialFrequencies_lookup, Hp. reflexivity.
    - repeat split. }
  split; [reflexivity|].
  intros -> p'. simpl.
  rewrite !setPartialFrequencies_lookup.
  repeat split; intros H;
    apply fmap_Some in H; destruct H as (p & _ & ->); reflexivity.
Qed.

(** ** Changing one amplitude *)

(** C5: CHANGE_AMPLITUDE(k, a) at a position k of the partial list gives the
    partial at k the amplitude a and the curve sampled at its unchanged
    frequency; the partials at all other positions, playing, masterGain and
    fundamentalFrequency are unchanged; totalCurve is recombined over all
    partials' data with the current masterGain. *)
Theorem changeAmplitude_frame (s : AppStateRecord) (k : Z) (a : number) :
  0 <= k < Z.of_nat (length (partials s)) ->
  exists (s' : AppStateRecord) (p p' : PartialRecord),
    harmonicsReducer (Some s) (mkAction CHANGE_AMPLITUDE (AmplitudePayload k a))
      = Returned s' /\
    partials s !! Z.to_nat k = Some p /\
    partials s' !! Z.to_nat k = Some p' /\
    amplitude p' = a /\
    frequency p' = frequency p /\
    data p' = calculateSineCurve (frequency p) a 650%float 44100%float /\
    (forall j : nat, j <> Z.to_nat k -> partials s' !! j = partials s !! j) /\
    length (partials s') = length (partials s) /\
    playing s' = playing s /\
    masterGain s' = masterGain s /\
    fundamentalFrequency s' = fundamentalFrequency s /\
    totalCurve s' = combineCurves (data <$> partials s') (masterGain s).
Proof.
  intros Hk.
  destruct (lookup_lt_is_Some_2 (partials s) (Z.to_nat k)) as [p Hp]; [lia|].
  exists (updateTotalCurve
            (set_partials s (<[Z.to_nat k := changeAmplitudeForPartial p a]> (partials s)))),
         p, (changeAmplitudeForPartial p a).
  split.
  { rewrite reduce_CHANGE_AMPLITUDE.
    rewrite <- (Z2Nat.id k) at 1 by lia. apply changeAmplitude_in_range, Hp. }
  split; [exact Hp|].
  split; [simpl; apply list_lookup_insert_eq; lia|].
  split; [reflexivity|]. split; [reflexivity|]. split; [reflexivity|].
  split; [intros j Hj; simpl; apply list_lookup_insert_ne; congruence|].
  split; [simpl; apply length_insert|].
  repeat split.
Qed.

(** ** Changing the master gain *)

Section MasterGain.

(** The combiner meets the contract that the spec gives it. *)
Hypothesis combineCurves_contract :
  forall (curves : list (list number)) (gain : number),
    combineCurves curves gain = combineCurves_spec curves gain.

(** C6: CHANGE_MASTER_GAIN(g) sets masterGain to g, keeps every partial (so
    its frequency, amplitude and data), playing and fundamentalFrequency,
    and recombines totalCurve from the existing partial data with the gain
    g.  With the combiner of the spec, every sample of the new totalCurve is
    g times the sample of the unscaled partial sum, where the old one, in a
    state whose totalCurve is up to date, is the previous gain times the
    same sample: the factor on the unscaled sum goes from the previous gain
    to g. *)
Theorem changeMasterGain_spec (s : AppStateRecord) (g : number) :
  exists s',
    harmonicsReducer (Some s) (mkAction CHANGE_MASTER_GAIN (NumberPayload g))
      = Returned s' /\
    masterGain s' = g /\
    partials s' = partials s /\
    playing s' = playing s /\
    fundamentalFrequency s' = fundamentalFrequency s /\
    totalCurve s' = combineCurves (data <$> partials s) g /\
    totalCurve s' = (fun u => (g * u)%float) <$> partialSum (data <$> partials s) /\
    (totalCurve s = combineCurves (data <$> partials s) (masterGain s) ->
     totalCurve s =
       (fun u => (masterGain s * u)%float) <$> partialSum (data <$> partials s)).
Proof.
  exists (changeMasterGain s g). rewrite reduce_CHANGE_MASTER_GAIN.
  repeat split.
  - simpl. apply combineCurves_contract.
  - intros ->. apply combineCurves_contract.
Qed.

End MasterGain.

(** ** The consistency invariant *)

Lemma makeInitialState_consistent : consistent makeInitialState.
Proof.
  split; [|reflexivity].
  intros i p Hp.
  rewrite makeInitialState_partials in Hp.
  do 13 (destruct i as [|i]; [injection Hp as <-; split; reflexivity|]).
  discriminate Hp.
Qed.

Lemma setPlayState_consistent (s : AppStateRecord) (b : bool) :
  consistent s -> consistent (setPlayState s b).
Proof. intros [Hps Htc]. split; assumption. Qed.

Lemma changeMasterGain_consistent (s : AppStateRecord) (g : number) :
  consistent s -> consistent (changeMasterGain s g).
Proof. intros [Hps _]. split; [exact Hps|reflexivity]. Qed.

(** Retuning makes every partial consistent, whatever the state was. *)
Lemma changeFundamentalFrequency_consistent (s : AppStateRecord) (f : number) :
  consistent (changeFundamentalFrequency s f).
Proof.
  split; [|reflexivity].
  intros i p. simpl. rewrite setPartialFrequencies_lookup.
  intros H. apply fmap_Some in H. destruct H as (q & _ & ->).
  split; reflexivity.
Qed.

Lemma changeAmplitude_consistent (s s' : AppStateRecord) (k : Z) (a : number) :
  consistent s -> changeAmplitude s k a = Returned s' -> consistent s'.
Proof.
  intros [Hps _]. unfold changeAmplitude, updateIn_partials.
  destruct (List_get (partials s) k) as [p|] eqn:Hget; [|discriminate].
  apply List_get_Some in Hget. destruct Hget as [Hlt Hp].
  intros [= <-]. split; [|reflexivity].
  intros j q. simpl. unfold List_set.
  destruct (decide (Z.to_nat (wrapIndex (partials s) k) = j)) as [<-|Hne].
  - rewrite list_lookup_insert_eq by exact Hlt. intros [= <-].
    destruct (Hps _ _ Hp) as [Hf _]. split; [exact Hf|reflexivity].
  - rewrite list_lookup_insert_ne by exact Hne. apply Hps.
Qed.

(** Every returning step of the reducer keeps the invariant. *)
Lemma harmonicsReducer_consistent (s s' : AppStateRecord) (a : Action) :
  consistent s -> harmonicsReducer (Some s) a = Returned s' -> consistent s'.
Proof.
  intros Hs Hstep.
  destruct (reduce_Returned_inv _ _ _ Hstep)
    as [->|[->|[(k & amp & Hca)|[(g & ->)|[(f & ->)| ->]]]]].
  - apply setPlayState_consistent, Hs.
  - apply setPlayState_consistent, Hs.
  - eapply changeAmplitude_consistent; eauto.
  - apply changeMasterGain_consistent, Hs.
  - apply changeFundamentalFrequency_consistent.
  - exact Hs.
Qed.

(** C1: in every state reachable from the initial state by START, STOP,
    CHANGE_AMPLITUDE with an in-range index, CHANGE_FUNDAMENTAL_FREQUENCY,
    CHANGE_MASTER_GAIN and unrecognized mutations, the partial at index i
    has frequency fundamentalFrequency*(i+1) and the data that the sampler
    gives for (frequency, amplitude, 650, 44100), and totalCurve is the
    combiner's result for all partials' data and masterGain. *)
Theorem Reachable_consistent (s : AppStateRecord) :
  Reachable s -> consistent s.
Proof.
  induction 1 as [|s a s' _ IH _ Hstep].
  - apply makeInitialState_consistent.
  - eapply harmonicsReducer_consistent; eauto.
Qed.

(** The partial list keeps its thirteen entries. *)
Lemma harmonicsReducer_length (s s' : AppStateRecord) (a : Action) :
  harmonicsReducer (Some s) a = Returned s' ->
  length (partials s') = length (partials s).
Proof.
  intros Hstep.
  destruct (reduce_Returned_inv _ _ _ Hstep)
    as [->|[->|[(k & amp & Hca)|[(g & ->)|[(f & ->)| ->]]]]];
    try reflexivity.
  - unfold changeAmplitude, updateIn_partials in Hca.
    destruct (List_get (partials s) k); [|discriminate].
    injection Hca as <-. simpl. apply length_insert.
  - simpl. apply length_imap.
Qed.

Lemma Reachable_wellformed (s : AppStateRecord) :
  Reachable s ->
  length (partials s) = Z.to_nat HARMONICS_COUNT /\ consistent s.
Proof.
  induction 1 as [|s a s' _ [IHlen IHcons] _ Hstep].
  - split; [reflexivity|apply makeInitialState_consistent].
  - split.
    + rewrite <- IHlen. eapply harmonicsReducer_length; eauto.
    + eapply harmonicsReducer_consistent; eauto.
Qed.

(** ** Idempotence of an amplitude change *)

Lemma changeAmplitudeForPartial_same (f : number) (i : nat) (p : PartialRecord) :
  partial_consistent f i p -> changeAmplitudeForPartial p (amplitude p) = p.
Proof.
  intros [_ Hd]. destruct p as [fr am d]. simpl in *.
  unfold changeAmplitudeForPartial, updateCurve, merge_data, merge_amplitude. simpl.
  rewrite Hd. reflexivity.
Qed.

(** C9: in a reachable state, CHANGE_AMPLITUDE(k, a) with an in-range index
    k and a the current amplitude of the partial at k gives a state whose
    totalCurve and whose data of partial k are equal, sample by sample, to
    those of the state before (equal, so within any tolerance). *)
Theorem changeAmplitude_idempotent (s : AppStateRecord) (k : Z) :
  Reachable s ->
  0 <= k < HARMONICS_COUNT ->
  exists (p : PartialRecord) (s' : AppStateRecord) (p' : PartialRecord),
    partials s !! Z.to_nat k = Some p /\
    harmonicsReducer (Some s)
      (mkAction CHANGE_AMPLITUDE (AmplitudePayload k (amplitude p))) = Returned s' /\
    partials s' !! Z.to_nat k = Some p' /\
    data p' = data p /\
    totalCurve s' = totalCurve s.
Proof.
  intros Hreach Hk.
  destruct (Reachable_wellformed _ Hreach) as [Hlen [Hps Htc]].
  unfold HARMONICS_COUNT in *.
  destruct (lookup_lt_is_Some_2 (partials s) (Z.to_nat k)) as [p Hp]; [lia|].
  exists p, s, p.
  repeat split; try assumption.
  rewrite reduce_CHANGE_AMPLITUDE.
  pose proof (changeAmplitude_in_range s (Z.to_nat k) (amplitude p) p Hp) as Hca.
  rewrite Z2Nat.id in Hca by lia. rewrite Hca.
  rewrite (changeAmplitudeForPartial_same _ _ _ (Hps _ _ Hp)).
  rewrite (list_insert_id _ _ _ Hp).
  f_equal. destruct s as [pl mg ff ps tc]. simpl in *.
  unfold updateTotalCurve, set_partials, merge_totalCurve. simpl.
  rewrite <- Htc. reflexivity.
Qed.

(** ** CHANGE_AMPLITUDE with an index that is not a position of the list *)

(** C4, amended: the reducer has no IndexOutOfRange error.  In a state with
    thirteen partials, an index of 13 or more, or below -13, makes it raise
    a TypeError and return no state; an index from -13 to -1 is not an
    error: it counts from the end of the list, so the mutation returns the
    state that CHANGE_AMPLITUDE(13 + index, amplitude) returns. *)
Theorem changeAmplitude_out_of_range (s : AppStateRecord) (k : Z) (a : number) :
  length (partials s) = Z.to_nat HARMONICS_COUNT ->
  (k < - HARMONICS_COUNT \/ HARMONICS_COUNT <= k ->
   harmonicsReducer (Some s) (mkAction CHANGE_AMPLITUDE (AmplitudePayload k a))
     = Threw TypeError) /\
  (- HARMONICS_COUNT <= k < 0 ->
   exists s',
     harmonicsReducer (Some s) (mkAction CHANGE_AMPLITUDE (AmplitudePayload k a))
       = Returned s' /\
     harmonicsReducer (Some s)
       (mkAction CHANGE_AMPLITUDE (AmplitudePayload (HARMONICS_COUNT + k) a))
       = Returned s').
Proof.
  intros Hlen. unfold HARMONICS_COUNT in *.
  rewrite !reduce_CHANGE_AMPLITUDE. unfold changeAmplitude, updateIn_partials. split.
  - intros Hk. rewrite List_get_out_of_range by lia. reflexivity.
  - intros Hk.
    destruct (List_get_negative (partials s) k) as [Hget Hset]; [lia|].
    rewrite Hlen in Hget, Hset. change (Z.of_nat (Z.to_nat 13)) with 13 in Hget, Hset.
    rewrite Hget, Hset.
    rewrite List_get_in_range by lia.
    destruct (lookup_lt_is_Some_2 (partials s) (Z.to_nat (13 + k))) as [p Hp]; [lia|].
    rewrite Hp. eexists. split; reflexivity.
Qed.

(** * Further properties of the reducer *)

(** ** The reducer by action type *)

(** The branch that the [switch] takes, for every state at once. *)
Lemma harmonicsReducer_cases (a : Action) :
  (type a = START /\
   forall s, harmonicsReducer (Some s) a = Returned (setPlayState s true)) \/
  (type a = STOP /\
   forall s, harmonicsReducer (Some s) a = Returned (setPlayState s false)) \/
  (type a = CHANGE_AMPLITUDE /\
   forall s, harmonicsReducer (Some s) a =
     match payload a with
     | AmplitudePayload k amp => changeAmplitude s k amp
     | NoPayload => Threw TypeError
     | NumberPayload _ => IllTyped
     end) \/
  (type a = CHANGE_MASTER_GAIN /\
   forall s, harmonicsReducer (Some s) a =
     match payload a with
     | NumberPayload g => Returned (changeMasterGain s g)
     | _ => IllTyped
     end) \/
  (type a = CHANGE_FUNDAMENTAL_FREQUENCY /\
   forall s, harmonicsReducer (Some s) a =
     match payload a with
     | NumberPayload f => Returned (changeFundamentalFrequency s f)
     | _ => IllTyped
     end) \/
  (~ In (type a) recognizedTypes /\
   forall s, harmonicsReducer (Some s) a = Returned s).
Proof.
  unfold harmonicsReducer.
  destruct (String.eqb (type a) START) eqn:H1;
    [apply String.eqb_eq in H1; left; split; [exact H1|reflexivity]|].
  destruct (String.eqb (type a) STOP) eqn:H2;
    [apply String.eqb_eq in H2; right; left; split; [exact H2|reflexivity]|].
  destruct (String.eqb (type a) CHANGE_AMPLITUDE) eqn:H3;
    [apply String.eqb_eq in H3; do 2 right; left; split; [exact H3|reflexivity]|].
  destruct (String.eqb (type a) CHANGE_MASTER_GAIN) eqn:H4;
    [apply String.eqb_eq in H4; do 3 right; left; split; [exact H4|reflexivity]|].
  destruct (String.eqb (type a) CHANGE_FUNDAMENTAL_FREQUENCY) eqn:H5;
    [apply String.eqb_eq in H5; do 4 right; left; split; [exact H5|reflexivity]|].
  do 5 right. split; [|reflexivity].
  apply String.eqb_neq in H1, H2, H3, H4, H5.
  unfold recognizedTypes. simpl. intros H.
  repeat (destruct H as [H|H]; [congruence|]). exact H.
Qed.

(** Splits a goal about [harmonicsReducer _ a] by the type of [a]; [Hty] is
    the equation (or exclusion) for the type and [Hred] the branch taken. *)
Ltac by_action_type a Hty Hred :=
  destruct (harmonicsReducer_cases a)
    as [[Hty Hred]|[[Hty Hred]|[[Hty Hred]|[[Hty Hred]|[[Hty Hred]|[Hty Hred]]]]]].

(** ** Lists of partials *)

Lemma List_get_lookup {A} (l : list A) (k : Z) :
  List_get l k = None \/
  ((Z.to_nat (wrapIndex l k) < length l)%nat /\
   List_get l k = l !! Z.to_nat (wrapIndex l k)).
Proof.
  destruct (List_get l k) as [x|] eqn:Hget; [right|left; reflexivity].
  apply List_get_Some in Hget. destruct Hget as [Hlt Hx]. split; [exact Hlt|].
  symmetry. exact Hx.
Qed.

(** The retuned partial at position [i]. *)
Definition retuned (f : number) (i : nat) (p : PartialRecord) : PartialRecord :=
  let fr := (f * (num_of_nat i + 1))%float in
  mkPartial fr (amplitude p) (calculateSineCurve fr (amplitude p) SAMPLE_COUNT SAMPLE_RATE).

Lemma setPartialFrequencies_retuned (ps : list PartialRecord) (f : number) (i : nat) :
  setPartialFrequencies ps f !! i = retuned f i <$> ps !! i.
Proof. unfold setPartialFrequencies. rewrite list_lookup_imap. reflexivity. Qed.

Lemma setPartialFrequencies_length (ps : list PartialRecord) (f : number) :
  length (setPartialFrequencies ps f) = length ps.
Proof. apply length_imap. Qed.

Lemma setPartialFrequencies_get (ps : list PartialRecord) (f : number) (k : Z) :
  wrapIndex (setPartialFrequencies ps f) k = wrapIndex ps k /\
  List_get (setPartialFrequencies ps f) k
  = retuned f (Z.to_nat (wrapIndex ps k)) <$> List_get ps k.
Proof.
  unfold List_get, wrapIndex. rewrite setPartialFrequencies_length.
  split; [reflexivity|]. cbv zeta.
  destruct ((0 <=? (if k <? 0 then Z.of_nat (length ps) + k else k)) &&
            ((if k <? 0 then Z.of_nat (length ps) + k else k) <? Z.of_nat (length ps)));
    [apply setPartialFrequencies_retuned|reflexivity].
Qed.

Lemma setPartialFrequencies_insert (ps : list PartialRecord) (f : number) (i : nat)
    (p : PartialRecord) :
  setPartialFrequencies (<[i := p]> ps) f = <[i := retuned f i p]> (setPartialFrequencies ps f).
Proof.
  apply list_eq. intros j.
  rewrite setPartialFrequencies_retuned.
  destruct (decide (i = j)) as [<-|Hne].
  - destruct (decide (i < length ps)%nat) as [Hlt|Hge].
    + rewrite !list_lookup_insert_eq
        by (rewrite ?setPartialFrequencies_length; exact Hlt).
      reflexivity.
    + rewrite !list_insert_ge by (rewrite ?setPartialFrequencies_length; lia).
      rewrite setPartialFrequencies_retuned. reflexivity.
  - rewrite !list_lookup_insert_ne by exact Hne.
    rewrite setPartialFrequencies_retuned. reflexivity.
Qed.

Lemma setPartialFrequencies_twice (ps : list PartialRecord) (f1 f2 : number) :
  setPartialFrequencies (setPartialFrequencies ps f1) f2 = setPartialFrequencies ps f2.
Proof.
  apply list_eq. intros i. rewrite !setPartialFrequencies_retuned.
  destruct (ps !! i); reflexivity.
Qed.

Lemma setPartialFrequencies_amplitudes (ps : list PartialRecord) (f : number) :
  amplitude <$> setPartialFrequencies ps f = amplitude <$> ps.
Proof.
  apply list_eq. intros i. rewrite !list_lookup_fmap, setPartialFrequencies_retuned.
  destruct (ps !! i); reflexivity.
Qed.

Lemma List_get_is_Some {A} (l : list A) (k : Z) :
  - Z.of_nat (length l) <= k < Z.of_nat (length l) -> is_Some (List_get l k).
Proof.
  intros Hk. unfold List_get, wrapIndex. cbv zeta.
  destruct (k <? 0) eqn:Hneg.
  - apply Z.ltb_lt in Hneg.
    replace (0 <=? Z.of_nat (length l) + k) with true by (symmetry; apply Z.leb_le; lia).
    replace (Z.of_nat (length l) + k <? Z.of_nat (length l)) with true
      by (symmetry; apply Z.ltb_lt; lia).
    apply lookup_lt_is_Some_2. lia.
  - apply Z.ltb_ge in Hneg.
    replace (0 <=? k) with true by (symmetry; apply Z.leb_le; lia).
    replace (k <? Z.of_nat (length l)) with true by (symmetry; apply Z.ltb_lt; lia).
    apply lookup_lt_is_Some_2. lia.
Qed.

Lemma List_get_None_iff {A} (l : list A) (k : Z) :
  List_get l k = None <->
  k < - Z.of_nat (length l) \/ Z.of_nat (length l) <= k.
Proof.
  split; [|apply List_get_out_of_range].
  intros Hnone.
  destruct (Z_lt_dec k (- Z.of_nat (length l))) as [|Hlo]; [left; assumption|].
  destruct (Z_le_dec (Z.of_nat (length l)) k) as [|Hhi]; [right; assumption|].
  destruct (List_get_is_Some l k) as [x Hx]; [lia|]. congruence.
Qed.


(** ** When the reducer raises *)


(** ** The number of partials *)

(** A returning step of the reducer never adds or removes a partial, from
    any state; so every reachable state has exactly thirteen. *)
Theorem partials_count_preserved (s : AppStateRecord) :
  (forall (a : Action) (s' : AppStateRecord),
      harmonicsReducer (Some s) a = Returned s' ->
      length (partials s') = length (partials s)) /\
  (Reachable s -> length (partials s) = 13%nat).
Proof.
  split.
  - intros a s' Hstep. eapply harmonicsReducer_length, Hstep.
  - intros Hreach. apply Reachable_wellformed in Hreach. apply Hreach.
Qed.

(** ** Each parameter has its own mutation *)

Lemma changeAmplitude_frequencies (s s' : AppStateRecord) (k : Z) (a : number) :
  changeAmplitude s k a = Returned s' ->
  frequency <$> partials s' = frequency <$> partials s.
Proof.
  unfold changeAmplitude, updateIn_partials.
  destruct (List_get (partials s) k) as [p|] eqn:Hget; [|discriminate].
  apply List_get_Some in Hget. destruct Hget as [_ Hp].
  intros [= <-]. simpl. unfold List_set.
  rewrite list_fmap_insert. apply list_insert_id.
  rewrite list_lookup_fmap, Hp. reflexivity.
Qed.

(** Whatever the state, a returning step changes [playing] only under START
    or STOP, [masterGain] only under CHANGE_MASTER_GAIN, the fundamental
    frequency and the partials' frequencies only under
    CHANGE_FUNDAMENTAL_FREQUENCY, and the partials' amplitudes only under
    CHANGE_AMPLITUDE. *)
Theorem harmonicsReducer_field_frame (s s' : AppStateRecord) (a : Action) :
  harmonicsReducer (Some s) a = Returned s' ->
  (type a <> START -> type a <> STOP -> playing s' = playing s) /\
  (type a <> CHANGE_MASTER_GAIN -> masterGain s' = masterGain s) /\
  (type a <> CHANGE_FUNDAMENTAL_FREQUENCY ->
   fundamentalFrequency s' = fundamentalFrequency s /\
   frequency <$> partials s' = frequency <$> partials s) /\
  (type a <> CHANGE_AMPLITUDE ->
   amplitude <$> partials s' = amplitude <$> partials s).
Proof.
  by_action_type a Hty Hred; rewrite Hred; clear Hred.
  - intros [= <-]. repeat split; congruence.
  - intros [= <-]. repeat split; congruence.
  - destruct (payload a) as [|n|k amp]; try discriminate.
    intros Hca. split; [|split; [|split]].
    + intros _ _. unfold changeAmplitude, updateIn_partials in Hca.
      destruct (List_get (partials s) k); [|discriminate].
      injection Hca as <-. reflexivity.
    + intros _. unfold changeAmplitude, updateIn_partials in Hca.
      destruct (List_get (partials s) k); [|discriminate].
      injection Hca as <-. reflexivity.
    + intros _. split; [|eapply changeAmplitude_frequencies, Hca].
      unfold changeAmplitude, updateIn_partials in Hca.
      destruct (List_get (partials s) k); [|discriminate].
      injection Hca as <-. reflexivity.
    + congruence.
  - destruct (payload a) as [|g|]; try discriminate.
    intros [= <-]. repeat split; congruence.
  - destruct (payload a) as [|f|]; try discriminate.
    intros [= <-]. split; [reflexivity|]. split; [reflexivity|].
    split; [congruence|].
    intros _. simpl. apply setPartialFrequencies_amplitudes.
  - intros [= <-]. repeat split.
Qed.

(** ** Curves are refreshed on the way out *)

(** From any state, also one whose curves are out of date, a returning
    CHANGE_AMPLITUDE, CHANGE_MASTER_GAIN or CHANGE_FUNDAMENTAL_FREQUENCY
    leaves totalCurve equal to the combiner's result for the new partials'
    data and the new gain; CHANGE_FUNDAMENTAL_FREQUENCY moreover leaves every
    partial with the frequency and the sampled curve that the invariant
    asks for. *)
Theorem curve_mutations_refresh (s s' : AppStateRecord) (a : Action) :
  harmonicsReducer (Some s) a = Returned s' ->
  (type a = CHANGE_AMPLITUDE \/ type a = CHANGE_MASTER_GAIN \/
   type a = CHANGE_FUNDAMENTAL_FREQUENCY ->
   totalCurve s' = combineCurves (data <$> partials s') (masterGain s')) /\
  (type a = CHANGE_FUNDAMENTAL_FREQUENCY -> consistent s').
Proof.
  by_action_type a Hty Hred; rewrite Hred; clear Hred.
  1,2: intros _; split; [intros [H|[H|H]]|intros H]; rewrite H in Hty; discriminate Hty.
  - destruct (payload a) as [|n|k amp]; try discriminate.
    intros Hca. split; [|intros H; rewrite H in Hty; discriminate Hty].
    intros _. unfold changeAmplitude, updateIn_partials in Hca.
    destruct (List_get (partials s) k); [|discriminate].
    injection Hca as <-. reflexivity.
  - destruct (payload a) as [|g|]; try discriminate.
    intros [= <-]. split; [reflexivity|].
    intros H; rewrite H in Hty; discriminate Hty.
  - destruct (payload a) as [|f|]; try discriminate.
    intros [= <-]. split; [reflexivity|].
    intros _. apply changeFundamentalFrequency_consistent.
  - intros _. split; [intros [H|[H|H]]|intros H];
      exfalso; apply Hty; rewrite H; unfold recognizedTypes; simpl; tauto.
Qed.

(** ** Mutations of different parameters commute *)

(** START and STOP commute with every action of another type: dispatched
    before or after it, they give the same state, or the same error. *)
Theorem playState_commutes (s : AppStateRecord) (pl : Payload) (a : Action) :
  type a <> START -> type a <> STOP ->
  dispatch (harmonicsReducer (Some s) (mkAction START pl)) a
  = dispatch (harmonicsReducer (Some s) a) (mkAction START pl) /\
  dispatch (harmonicsReducer (Some s) (mkAction STOP pl)) a
  = dispatch (harmonicsReducer (Some s) a) (mkAction STOP pl).
Proof.
  intros Hstart Hstop. rewrite reduce_START, reduce_STOP.
  unfold dispatch. cbn [Completion_bind].
  by_action_type a Hty Hred; rewrite !Hred; try contradiction.
  - destruct (payload a) as [|n|k amp]; [split; reflexivity..|].
    unfold changeAmplitude, updateIn_partials. simpl.
    destruct (List_get (partials s) k); split; reflexivity.
  - destruct (payload a); split; reflexivity.
  - destruct (payload a); split; reflexivity.
  - split; reflexivity.
Qed.

(** CHANGE_MASTER_GAIN commutes with every action of another type. *)
Theorem masterGain_commutes (s : AppStateRecord) (g : number) (a : Action) :
  type a <> CHANGE_MASTER_GAIN ->
  dispatch (harmonicsReducer (Some s) (mkAction CHANGE_MASTER_GAIN (NumberPayload g))) a
  = dispatch (harmonicsReducer (Some s) a) (mkAction CHANGE_MASTER_GAIN (NumberPayload g)).
Proof.
  intros Hgain. rewrite reduce_CHANGE_MASTER_GAIN.
  unfold dispatch. cbn [Completion_bind].
  by_action_type a Hty Hred; rewrite !Hred; try contradiction; try reflexivity.
  - destruct (payload a) as [|n|k amp]; try reflexivity.
    unfold changeAmplitude, updateIn_partials. simpl.
    destruct (List_get (partials s) k); reflexivity.
  - destruct (payload a); reflexivity.
Qed.

(** CHANGE_FUNDAMENTAL_FREQUENCY commutes with every action of another
    type; with CHANGE_AMPLITUDE in particular, whose partial is resampled at
    the new frequency and the new amplitude in either order. *)
Theorem fundamentalFrequency_commutes (s : AppStateRecord) (f : number) (a : Action) :
  type a <> CHANGE_FUNDAMENTAL_FREQUENCY ->
  dispatch
    (harmonicsReducer (Some s) (mkAction CHANGE_FUNDAMENTAL_FREQUENCY (NumberPayload f))) a
  = dispatch (harmonicsReducer (Some s) a)
      (mkAction CHANGE_FUNDAMENTAL_FREQUENCY (NumberPayload f)).
Proof.
  intros Hfreq. rewrite reduce_CHANGE_FUNDAMENTAL_FREQUENCY.
  unfold dispatch. cbn [Completion_bind].
  by_action_type a Hty Hred; rewrite !Hred; try contradiction; try reflexivity.
  - destruct (payload a) as [|n|k amp]; try reflexivity.
    unfold changeAmplitude, updateIn_partials. simpl.
    destruct (setPartialFrequencies_get (partials s) f k) as [Hwrap Hget].
    rewrite Hget. unfold List_set. rewrite Hwrap.
    destruct (List_get (partials s) k) as [p|]; [|reflexivity].
    simpl. rewrite reduce_CHANGE_FUNDAMENTAL_FREQUENCY.
    unfold changeFundamentalFrequency. simpl.
    rewrite setPartialFrequencies_insert. reflexivity.
  - destruct (payload a); reflexivity.
Qed.

(** [get] either finds nothing, for an index outside [-length, length), or
    reads the wrapped position. *)
Lemma List_get_cases {A} (l : list A) (k : Z) :
  (List_get l k = None /\
   (k < - Z.of_nat (length l) \/ Z.of_nat (length l) <= k)) \/
  (- Z.of_nat (length l) <= k < Z.of_nat (length l) /\
   (Z.to_nat (wrapIndex l k) < length l)%nat /\
   List_get l k = l !! Z.to_nat (wrapIndex l k)).
Proof.
  destruct (List_get_lookup l k) as [Hnone|[Hlt Hget]].
  - left. split; [exact Hnone|apply List_get_None_iff, Hnone].
  - right. split; [|split; assumption].
    destruct (Z_lt_dec k (- Z.of_nat (length l))) as [Hlo|Hlo];
      [|destruct (Z_le_dec (Z.of_nat (length l)) k) as [Hhi|Hhi]; [|lia]].
    + destruct (lookup_lt_is_Some_2 _ _ Hlt) as [x Hx].
      rewrite (List_get_out_of_range l k) in Hget by lia. congruence.
    + destruct (lookup_lt_is_Some_2 _ _ Hlt) as [x Hx].
      rewrite (List_get_out_of_range l k) in Hget by lia. congruence.
Qed.

Lemma List_get_insert {A} (l : list A) (i : nat) (x : A) (k : Z) :
  wrapIndex (<[i := x]> l) k = wrapIndex l k /\
  List_get (<[i := x]> l) k =
    match List_get l k with
    | Some y => Some (if decide (i = Z.to_nat (wrapIndex l k)) then x else y)
    | None => None
    end.
Proof.
  assert (Hwrap : wrapIndex (<[i := x]> l) k = wrapIndex l k)
    by (unfold wrapIndex; rewrite length_insert; reflexivity).
  split; [exact Hwrap|].
  destruct (List_get_cases l k) as [[Hnone Hout]|(Hin & Hlt & Hget)].
  - rewrite Hnone. apply List_get_None_iff. rewrite length_insert. exact Hout.
  - destruct (List_get_cases (<[i := x]> l) k) as [[_ Hout]|(_ & _ & Hget')];
      [rewrite length_insert in Hout; lia|].
    rewrite Hget', Hget, Hwrap, list_lookup_insert.
    destruct (lookup_lt_is_Some_2 _ _ Hlt) as [y Hy]. rewrite Hy.
    destruct (decide (i = Z.to_nat (wrapIndex l k))) as [->|Hne].
    + rewrite decide_True by (split; [reflexivity|exact Hlt]). reflexivity.
    + rewrite decide_False by (intros [? _]; contradiction). reflexivity.
Qed.

(** A CHANGE_AMPLITUDE that returned, followed by one more action. *)
Lemma dispatch_changeAmplitude (s : AppStateRecord) (k : Z) (a : number) (next : Action) :
  dispatch (changeAmplitude s k a) next =
  match List_get (partials s) k with
  | Some p =>
      harmonicsReducer
        (Some (updateTotalCurve
           (set_partials s
              (<[Z.to_nat (wrapIndex (partials s) k) := changeAmplitudeForPartial p a]>
                 (partials s))))) next
  | None => Threw TypeError
  end.
Proof.
  unfold changeAmplitude, updateIn_partials.
  destruct (List_get (partials s) k); reflexivity.
Qed.

Lemma wrapIndex_nonneg {A} (l : list A) (k : Z) :
  - Z.of_nat (length l) <= k -> 0 <= wrapIndex l k.
Proof.
  intros Hk. unfold wrapIndex.
  destruct (k <? 0) eqn:Hneg; [lia|apply Z.ltb_ge in Hneg; exact Hneg].
Qed.

(** Two CHANGE_AMPLITUDE mutations that name different partials commute;
    when either index names no partial, both orders raise the error. *)
Theorem amplitudes_commute (s : AppStateRecord) (j k : Z) (a b : number) :
  wrapIndex (partials s) j <> wrapIndex (partials s) k ->
  dispatch (harmonicsReducer (Some s) (mkAction CHANGE_AMPLITUDE (AmplitudePayload j a)))
    (mkAction CHANGE_AMPLITUDE (AmplitudePayload k b))
  = dispatch (harmonicsReducer (Some s) (mkAction CHANGE_AMPLITUDE (AmplitudePayload k b)))
      (mkAction CHANGE_AMPLITUDE (AmplitudePayload j a)).
Proof.
  intros Hjk.
  rewrite !reduce_CHANGE_AMPLITUDE, !dispatch_changeAmplitude.
  destruct (List_get_cases (partials s) j) as [[Hj _]|(Hjin & Hjlt & Hjget)];
    destruct (List_get_cases (partials s) k) as [[Hk _]|(Hkin & Hklt & Hkget)].
  - rewrite Hj, Hk. reflexivity.
  - rewrite Hj. destruct (List_get (partials s) k) as [q|]; [|reflexivity].
    rewrite reduce_CHANGE_AMPLITUDE. unfold changeAmplitude, updateIn_partials. simpl.
    destruct (List_get_insert (partials s) (Z.to_nat (wrapIndex (partials s) k))
                (changeAmplitudeForPartial q b) j) as [_ ->].
    rewrite Hj. reflexivity.
  - rewrite Hk. destruct (List_get (partials s) j) as [p|]; [|reflexivity].
    rewrite reduce_CHANGE_AMPLITUDE. unfold changeAmplitude, updateIn_partials. simpl.
    destruct (List_get_insert (partials s) (Z.to_nat (wrapIndex (partials s) j))
                (changeAmplitudeForPartial p a) k) as [_ ->].
    rewrite Hk. reflexivity.
  - assert (Hne : Z.to_nat (wrapIndex (partials s) j) <> Z.to_nat (wrapIndex (partials s) k)).
    { pose proof (wrapIndex_nonneg (partials s) j (proj1 Hjin)).
      pose proof (wrapIndex_nonneg (partials s) k (proj1 Hkin)). lia. }
    destruct (lookup_lt_is_Some_2 _ _ Hjlt) as [p Hp].
    destruct (lookup_lt_is_Some_2 _ _ Hklt) as [q Hq].
    rewrite Hjget, Hkget, Hp, Hq.
    rewrite !reduce_CHANGE_AMPLITUDE. unfold changeAmplitude, updateIn_partials. simpl.
    unfold List_set.
    destruct (List_get_insert (partials s) (Z.to_nat (wrapIndex (partials s) j))
                (changeAmplitudeForPartial p a) k) as [-> ->].
    destruct (List_get_insert (partials s) (Z.to_nat (wrapIndex (partials s) k))
                (changeAmplitudeForPartial q b) j) as [-> ->].
    rewrite Hjget, Hkget, Hp, Hq.
    rewrite !decide_False by congruence.
    simpl. rewrite (list_insert_insert_ne _ _ _ _ _ Hne). reflexivity.
Qed.

(** ** A later mutation of the same parameter overrides the earlier one *)

Lemma changeAmplitudeForPartial_twice (p : PartialRecord) (a1 a2 : number) :
  changeAmplitudeForPartial (changeAmplitudeForPartial p a1) a2
  = changeAmplitudeForPartial p a2.
Proof. reflexivity. Qed.

(** Dispatching a mutation twice with two values gives the state that the
    second value alone gives: nothing of the first value is left in the
    partials or in the curves.  This holds for START/STOP, for the master
    gain, for the fundamental frequency and for the amplitude of one
    partial, where an index that names no partial raises the same error
    either way. *)
Theorem later_mutation_overrides (s : AppStateRecord) :
  (forall (pl1 pl2 : Payload) (t : string),
      t = START \/ t = STOP ->
      dispatch (harmonicsReducer (Some s) (mkAction t pl1)) (mkAction START pl2)
      = harmonicsReducer (Some s) (mkAction START pl2) /\
      dispatch (harmonicsReducer (Some s) (mkAction t pl1)) (mkAction STOP pl2)
      = harmonicsReducer (Some s) (mkAction STOP pl2)) /\
  (forall g1 g2 : number,
      dispatch (harmonicsReducer (Some s) (mkAction CHANGE_MASTER_GAIN (NumberPayload g1)))
        (mkAction CHANGE_MASTER_GAIN (NumberPayload g2))
      = harmonicsReducer (Some s) (mkAction CHANGE_MASTER_GAIN (NumberPayload g2))) /\
  (forall f1 f2 : number,
      dispatch
        (harmonicsReducer (Some s)
           (mkAction CHANGE_FUNDAMENTAL_FREQUENCY (NumberPayload f1)))
        (mkAction CHANGE_FUNDAMENTAL_FREQUENCY (NumberPayload f2))
      = harmonicsReducer (Some s)
          (mkAction CHANGE_FUNDAMENTAL_FREQUENCY (NumberPayload f2))) /\
  (forall (k : Z) (a1 a2 : number),
      dispatch
        (harmonicsReducer (Some s) (mkAction CHANGE_AMPLITUDE (AmplitudePayload k a1)))
        (mkAction CHANGE_AMPLITUDE (AmplitudePayload k a2))
      = harmonicsReducer (Some s) (mkAction CHANGE_AMPLITUDE (AmplitudePayload k a2))).
Proof.
  split; [|split; [|split]].
  - intros pl1 pl2 t [-> | ->]; split; reflexivity.
  - intros g1 g2. reflexivity.
  - intros f1 f2. rewrite !reduce_CHANGE_FUNDAMENTAL_FREQUENCY.
    unfold dispatch. cbn [Completion_bind].
    rewrite reduce_CHANGE_FUNDAMENTAL_FREQUENCY.
    unfold changeFundamentalFrequency. simpl.
    rewrite setPartialFrequencies_twice. reflexivity.
  - intros k a1 a2. rewrite !reduce_CHANGE_AMPLITUDE, dispatch_changeAmplitude.
    unfold changeAmplitude, updateIn_partials.
    destruct (List_get (partials s) k) as [p|] eqn:Hget; [|reflexivity].
    rewrite reduce_CHANGE_AMPLITUDE. unfold changeAmplitude, updateIn_partials. simpl.
    unfold List_set.
    destruct (List_get_insert (partials s) (Z.to_nat (wrapIndex (partials s) k))
                (changeAmplitudeForPartial p a1) k) as [-> ->].
    rewrite Hget. rewrite decide_True by reflexivity. simpl.
    rewrite list_insert_insert_eq. reflexivity.
Qed.

(** ** Undoing a mutation *)

Lemma retuned_consistent (f : number) (i : nat) (p : PartialRecord) :
  partial_consistent f i p -> retuned f i p = p.
Proof.
  intros [Hf Hd]. destruct p as [fr am d]. simpl in *.
  unfold retuned. simpl. rewrite Hd, Hf. reflexivity.
Qed.

Lemma setPartialFrequencies_consistent (s : AppStateRecord) :
  consistent s ->
  setPartialFrequencies (partials s) (fundamentalFrequency s) = partials s.
Proof.
  intros [Hps _]. apply list_eq. intros i.
  rewrite setPartialFrequencies_retuned.
  destruct (partials s !! i) as [p|] eqn:Hp; [|reflexivity].
  simpl. rewrite (retuned_consistent _ _ _ (Hps _ _ Hp)). reflexivity.
Qed.

(** In a reachable state every mutation is undone by dispatching the same
    mutation with the value the state had before: the old master gain, the
    old fundamental frequency, or the old amplitude of the partial.  The
    state that comes back is the state before, curves included. *)
Theorem mutation_undone_by_old_value (s : AppStateRecord) :
  Reachable s ->
  (forall g : number,
      dispatch (harmonicsReducer (Some s) (mkAction CHANGE_MASTER_GAIN (NumberPayload g)))
        (mkAction CHANGE_MASTER_GAIN (NumberPayload (masterGain s)))
      = Returned s) /\
  (forall f : number,
      dispatch
        (harmonicsReducer (Some s)
           (mkAction CHANGE_FUNDAMENTAL_FREQUENCY (NumberPayload f)))
        (mkAction CHANGE_FUNDAMENTAL_FREQUENCY (NumberPayload (fundamentalFrequency s)))
      = Returned s) /\
  (forall (k : Z) (a : number) (p : PartialRecord),
      List_get (partials s) k = Some p ->
      dispatch
        (harmonicsReducer (Some s) (mkAction CHANGE_AMPLITUDE (AmplitudePayload k a)))
        (mkAction CHANGE_AMPLITUDE (AmplitudePayload k (amplitude p)))
      = Returned s).
Proof.
  intros Hreach. apply Reachable_wellformed in Hreach.
  destruct Hreach as [_ Hcons]. pose proof Hcons as [Hps Htc].
  split; [|split].
  - intros g. rewrite reduce_CHANGE_MASTER_GAIN.
    unfold dispatch. cbn [Completion_bind]. rewrite reduce_CHANGE_MASTER_GAIN.
    f_equal. destruct s as [pl mg ff ps tc]. simpl in *.
    unfold changeMasterGain, updateTotalCurve, merge_totalCurve, merge_masterGain. simpl.
    rewrite <- Htc. reflexivity.
  - intros f. rewrite reduce_CHANGE_FUNDAMENTAL_FREQUENCY.
    unfold dispatch. cbn [Completion_bind]. rewrite reduce_CHANGE_FUNDAMENTAL_FREQUENCY.
    f_equal. unfold changeFundamentalFrequency. simpl.
    rewrite setPartialFrequencies_twice, (setPartialFrequencies_consistent s Hcons).
    destruct s as [pl mg ff ps tc]. simpl in *.
    unfold updateTotalCurve, merge_totalCurve, set_partials. simpl.
    rewrite <- Htc. reflexivity.
  - intros k a p Hget.
    rewrite reduce_CHANGE_AMPLITUDE, dispatch_changeAmplitude, Hget.
    rewrite reduce_CHANGE_AMPLITUDE. unfold changeAmplitude, updateIn_partials. simpl.
    unfold List_set.
    destruct (List_get_insert (partials s) (Z.to_nat (wrapIndex (partials s) k))
                (changeAmplitudeForPartial p a) k) as [-> ->].
    rewrite Hget. rewrite decide_True by reflexivity. simpl.
    apply List_get_Some in Hget. destruct Hget as [_ Hp].
    rewrite list_insert_insert_eq, changeAmplitudeForPartial_twice.
    rewrite (changeAmplitudeForPartial_same _ _ _ (Hps _ _ Hp)).
    rewrite (list_insert_id _ _ _ Hp).
    f_equal. destruct s as [pl mg ff ps tc]. simpl in *.
    unfold updateTotalCurve, merge_totalCurve, set_partials. simpl.
    rewrite <- Htc. reflexivity.
Qed.

(** ** A reachable state is determined by its parameters *)

Lemma consistent_partials_determined (s1 s2 : AppStateRecord) :
  consistent s1 -> consistent s2 ->
  fundamentalFrequency s1 = fundamentalFrequency s2 ->
  amplitude <$> partials s1 = amplitude <$> partials s2 ->
  partials s1 = partials s2.
Proof.
  intros [Hps1 _] [Hps2 _] Hff Hamp. apply list_eq. intros i.
  assert (Hi : amplitude <$> partials s1 !! i = amplitude <$> partials s2 !! i)
    by (rewrite <- !list_lookup_fmap, Hamp; reflexivity).
  destruct (partials s1 !! i) as [p1|] eqn:Hp1;
    destruct (partials s2 !! i) as [p2|] eqn:Hp2; try discriminate; [|reflexivity].
  injection Hi as Ha.
  destruct (Hps1 _ _ Hp1) as [Hf1 Hd1]. destruct (Hps2 _ _ Hp2) as [Hf2 Hd2].
  f_equal. destruct p1 as [f1 a1 d1], p2 as [f2 a2 d2]. simpl in *.
  subst a2. rewrite Hd1, Hd2, Hf1, Hf2, Hff. reflexivity.
Qed.

(** Two reachable states that agree on playing, masterGain,
    fundamentalFrequency and the amplitudes of their partials are the same
    state: the frequencies and all curves are derived data, whatever
    sequence of mutations led there. *)
Theorem reachable_state_determined (s1 s2 : AppStateRecord) :
  Reachable s1 -> Reachable s2 ->
  playing s1 = playing s2 ->
  masterGain s1 = masterGain s2 ->
  fundamentalFrequency s1 = fundamentalFrequency s2 ->
  amplitude <$> partials s1 = amplitude <$> partials s2 ->
  s1 = s2.
Proof.
  intros H1 H2 Hpl Hmg Hff Hamp.
  apply Reachable_wellformed in H1, H2.
  destruct H1 as [_ Hc1], H2 as [_ Hc2].
  pose proof (consistent_partials_determined s1 s2 Hc1 Hc2 Hff Hamp) as Hps.
  destruct Hc1 as [_ Ht1], Hc2 as [_ Ht2].
  destruct s1 as [pl1 mg1 ff1 ps1 tc1], s2 as [pl2 mg2 ff2 ps2 tc2]. simpl in *.
  subst. reflexivity.
Qed.

(** ** Every run of the store *)




End Reducer.

(** * The reducer on concrete inputs *)

(** Closes a range [lo <= k < hi] between integer literals. *)
Ltac literal_range := split; [intros Hgt; discriminate Hgt | reflexivity].

Definition exampleReducer : option AppStateRecord -> Action -> Completion AppStateRecord :=
  harmonicsReducer rampCurve combineCurves_spec [] [].

Definition exampleInitialState : AppStateRecord :=
  makeInitialState rampCurve combineCurves_spec [] [].

(** The state after CHANGE_AMPLITUDE(2, 0.5) and CHANGE_MASTER_GAIN(0.2). *)
Definition exampleState : AppStateRecord :=
  changeMasterGain combineCurves_spec
    (updateTotalCurve combineCurves_spec
       (set_partials exampleInitialState
          (<[2%nat := mkPartial (261.63 * 3)%float 0.5%float
                        (rampCurve (261.63 * 3)%float 0.5%float 650%float 44100%float)]>
             (partials exampleInitialState))))
    0.2%float.

Lemma exampleState_Reachable :
  Reachable rampCurve combineCurves_spec [] [] exampleState.
Proof.
  eapply Reachable_step with
    (a := mkAction CHANGE_MASTER_GAIN (NumberPayload 0.2%float)).
  - eapply Reachable_step with
      (a := mkAction CHANGE_AMPLITUDE (AmplitudePayload 2 0.5%float)).
    + apply Reachable_init.
    + intros _. exists 2, 0.5%float. split; [reflexivity|]. literal_range.
    + reflexivity.
  - intros Heq. discriminate Heq.
  - reflexivity.
Qed.

(** The scenarios of the spec, evaluated. *)
Example scenario_A :
  fundamentalFrequency exampleInitialState = 261.63%float /\
  frequency <$> partials exampleInitialState !! 0%nat = Some 261.63%float /\
  amplitude <$> partials exampleInitialState !! 0%nat = Some 1%float /\
  amplitude <$> partials exampleInitialState !! 1%nat = Some 0%float /\
  playing exampleInitialState = false.
Proof. repeat split. Qed.

Example scenario_B :
  exists s',
    exampleReducer (Some exampleInitialState)
      (mkAction CHANGE_FUNDAMENTAL_FREQUENCY (NumberPayload 440%float)) = Returned s' /\
    frequency <$> partials s' =
      [440; 880; 1320; 1760; 2200; 2640; 3080; 3520; 3960; 4400; 4840; 5280; 5720]%float.
Proof. eexists. split; reflexivity. Qed.

Example scenario_E :
  exists s1 s2,
    exampleReducer (Some exampleInitialState) (mkAction START NoPayload) = Returned s1 /\
    exampleReducer (Some s1) (mkAction STOP NoPayload) = Returned s2 /\
    playing s1 = true /\ playing s2 = false /\ s2 = exampleInitialState.
Proof. do 2 eexists. repeat split. Qed.

(** An absent state takes the initial state as its default. *)
Example reducer_bootstrap :
  exampleReducer None (mkAction "@ngrx/store/init" NoPayload) = Returned exampleInitialState.
Proof. reflexivity. Qed.

(** ** Instances of the conditional properties *)

Lemma Reachable_consistent_witness :
  Reachable rampCurve combineCurves_spec [] [] exampleState /\
  consistent rampCurve combineCurves_spec exampleState.
Proof.
  split.
  - exact exampleState_Reachable.
  - exact (Reachable_consistent rampCurve combineCurves_spec [] [] exampleState
             exampleState_Reachable).
Defined.

Lemma unrecognized_identity_witness :
  ~ In "RESET_ALL"%string recognizedTypes /\
  exampleReducer (Some exampleState) (mkAction "RESET_ALL" NoPayload)
  = Returned exampleState.
Proof.
  assert (H : ~ In "RESET_ALL"%string recognizedTypes).
  { unfold recognizedTypes. simpl. intros H.
    repeat (destruct H as [H|H]; [discriminate H|]). exact H. }
  split; [exact H|].
  exact (unrecognized_identity rampCurve combineCurves_spec [] [] exampleState
           (mkAction "RESET_ALL" NoPayload) H).
Defined.

Lemma changeAmplitude_frame_witness :
  0 <= 2 < Z.of_nat (length (partials exampleInitialState)) /\
  exists (s' : AppStateRecord) (p' : PartialRecord),
    exampleReducer (Some exampleInitialState)
      (mkAction CHANGE_AMPLITUDE (AmplitudePayload 2 0.5%float)) = Returned s' /\
    partials s' !! 2%nat = Some p' /\
    amplitude p' = 0.5%float /\
    frequency p' = (261.63 * 3)%float /\
    (forall j : nat, j <> 2%nat -> partials s' !! j = partials exampleInitialState !! j).
Proof.
  assert (H : 0 <= 2 < Z.of_nat (length (partials exampleInitialState))).
  { literal_range. }
  split; [exact H|].
  destruct (changeAmplitude_frame rampCurve combineCurves_spec [] []
              exampleInitialState 2 0.5%float H)
    as (s' & p & p' & Hred & Hp & Hp' & Ha & Hf & _ & Hother & _).
  exists s', p'. split; [exact Hred|]. split; [exact Hp'|]. split; [exact Ha|].
  split; [|exact Hother].
  rewrite Hf. injection Hp as <-. reflexivity.
Defined.

Lemma changeMasterGain_spec_witness :
  (forall (curves : list (list number)) (gain : number),
      combineCurves_spec curves gain = combineCurves_spec curves gain) /\
  exists s',
    exampleReducer (Some exampleInitialState)
      (mkAction CHANGE_MASTER_GAIN (NumberPayload 0.2%float)) = Returned s' /\
    masterGain s' = 0.2%float /\
    partials s' = partials exampleInitialState /\
    totalCurve s' =
      (fun u => (0.2 * u)%float) <$> partialSum (data <$> partials exampleInitialState) /\
    totalCurve exampleInitialState =
      (fun u => (0.5 * u)%float) <$> partialSum (data <$> partials exampleInitialState).
Proof.
  split; [reflexivity|].
  destruct (changeMasterGain_spec rampCurve combineCurves_spec [] []
              (fun _ _ => eq_refl) exampleInitialState 0.2%float)
    as (s' & Hred & Hg & Hps & _ & _ & _ & Hnew & Hold).
  exists s'. split; [exact Hred|]. split; [exact Hg|]. split; [exact Hps|].
  split; [exact Hnew|]. apply Hold. reflexivity.
Defined.

Lemma changeAmplitude_idempotent_witness :
  Reachable rampCurve combineCurves_spec [] [] exampleState /\
  0 <= 2 < HARMONICS_COUNT /\
  exists (s' : AppStateRecord) (p' : PartialRecord),
    exampleReducer (Some exampleState)
      (mkAction CHANGE_AMPLITUDE (AmplitudePayload 2 0.5%float)) = Returned s' /\
    partials s' !! 2%nat = Some p' /\
    Some (data p') = data <$> partials exampleState !! 2%nat /\
    totalCurve s' = totalCurve exampleState.
Proof.
  assert (H : 0 <= 2 < HARMONICS_COUNT) by literal_range.
  split; [exact exampleState_Reachable|]. split; [exact H|].
  destruct (changeAmplitude_idempotent rampCurve combineCurves_spec [] []
              exampleState 2 exampleState_Reachable H)
    as (p & s' & p' & Hp & Hred & Hp' & Hd & Htc).
  injection Hp as <-.
  exists s', p'. split; [exact Hred|]. split; [exact Hp'|]. split; [|exact Htc].
  rewrite Hd. reflexivity.
Defined.

Lemma changeAmplitude_out_of_range_witness :
  length (partials exampleState) = Z.to_nat HARMONICS_COUNT /\
  exampleReducer (Some exampleState)
    (mkAction CHANGE_AMPLITUDE (AmplitudePayload 13 0.5%float)) = Threw TypeError /\
  exampleReducer (Some exampleState)
    (mkAction CHANGE_AMPLITUDE (AmplitudePayload (-14) 0.5%float)) = Threw TypeError /\
  exists s',
    exampleReducer (Some exampleState)
      (mkAction CHANGE_AMPLITUDE (AmplitudePayload (-1) 0.5%float)) = Returned s' /\
    exampleReducer (Some exampleState)
      (mkAction CHANGE_AMPLITUDE (AmplitudePayload 12 0.5%float)) = Returned s'.
Proof.
  assert (H : length (partials exampleState) = Z.to_nat HARMONICS_COUNT) by reflexivity.
  split; [exact H|].
  split; [|split].
  - apply (changeAmplitude_out_of_range rampCurve combineCurves_spec [] []
             exampleState 13 0.5%float H).
    right. intros Hgt; discriminate Hgt.
  - apply (changeAmplitude_out_of_range rampCurve combineCurves_spec [] []
             exampleState (-14) 0.5%float H).
    left. reflexivity.
  - apply (changeAmplitude_out_of_range rampCurve combineCurves_spec [] []
             exampleState (-1) 0.5%float H).
    literal_range.
Defined.

(** ** CHANGE_AMPLITUDE(-1, 0.5) is not reported as an error *)

(** C4, as stated, fails: the index -1 is outside [0, 13), and in the
    initial state the reducer raises nothing; it returns a state in which
    the amplitude of the last partial has gone from 0 to 0.5.  So it is not
    the case that every index outside [0, 13) ends in an error. *)
Lemma IndexOutOfRange_not_reported :
  (exists s',
      exampleReducer (Some exampleInitialState)
        (mkAction CHANGE_AMPLITUDE (AmplitudePayload (-1) 0.5%float)) = Returned s' /\
      amplitude <$> partials exampleInitialState !! 12%nat = Some 0%float /\
      amplitude <$> partials s' !! 12%nat = Some 0.5%float) /\
  ~ (forall (calculateSineCurve : number -> number -> number -> number -> list number)
            (combineCurves : list (list number) -> number -> list number)
            (partialDefaultData appStateDefaultTotalCurve : list number)
            (s : AppStateRecord) (k : Z) (a : number),
        ~ (0 <= k < HARMONICS_COUNT) ->
        exists e : JsError,
          harmonicsReducer calculateSineCurve combineCurves partialDefaultData
            appStateDefaultTotalCurve (Some s)
            (mkAction CHANGE_AMPLITUDE (AmplitudePayload k a)) = Threw e).
Proof.
  split.
  - eexists. split; [reflexivity|]. split; reflexivity.
  - intros Hall.
    destruct (Hall rampCurve combineCurves_spec [] [] exampleInitialState (-1) 0.5%float)
      as [e He].
    + intros [Hlo _]. apply Hlo. reflexivity.
    + discriminate He.
Qed.

(** ** Instances of the further properties *)

(** A state whose curves are out of date: one partial with no samples. *)
Definition staleState : AppStateRecord :=
  mkAppState false 0.5%float 100%float [mkPartial 1%float 1%float []] [].

(** The mutations of [exampleState], dispatched in the other order. *)
Definition exampleStateSwapped : AppStateRecord :=
  updateTotalCurve combineCurves_spec
    (set_partials (changeMasterGain combineCurves_spec exampleInitialState 0.2%float)
       (<[2%nat := mkPartial (261.63 * 3)%float 0.5%float
                     (rampCurve (261.63 * 3)%float 0.5%float 650%float 44100%float)]>
          (partials exampleInitialState))).

Lemma exampleStateSwapped_Reachable :
  Reachable rampCurve combineCurves_spec [] [] exampleStateSwapped.
Proof.
  eapply Reachable_step with
    (a := mkAction CHANGE_AMPLITUDE (AmplitudePayload 2 0.5%float)).
  - eapply Reachable_step with
      (a := mkAction CHANGE_MASTER_GAIN (NumberPayload 0.2%float)).
    + apply Reachable_init.
    + intros Heq. discriminate Heq.
    + reflexivity.
  - intros _. exists 2, 0.5%float. split; [reflexivity|]. literal_range.
  - reflexivity.
Qed.

Lemma harmonicsReducer_field_frame_witness :
  exampleReducer (Some exampleInitialState)
    (mkAction CHANGE_AMPLITUDE (AmplitudePayload 2 0.5%float))
  = Returned
      (updateTotalCurve combineCurves_spec
         (set_partials exampleInitialState
            (<[2%nat := mkPartial (261.63 * 3)%float 0.5%float
                          (rampCurve (261.63 * 3)%float 0.5%float 650%float 44100%float)]>
               (partials exampleInitialState)))) /\
  masterGain exampleState = 0.2%float /\
  frequency <$> partials exampleState = frequency <$> partials exampleInitialState.
Proof.
  split; [reflexivity|].
  assert (Hstep :
    harmonicsReducer rampCurve combineCurves_spec [] [] (Some exampleInitialState)
      (mkAction CHANGE_AMPLITUDE (AmplitudePayload 2 0.5%float))
    = Returned
        (updateTotalCurve combineCurves_spec
           (set_partials exampleInitialState
              (<[2%nat := mkPartial (261.63 * 3)%float 0.5%float
                            (rampCurve (261.63 * 3)%float 0.5%float 650%float 44100%float)]>
                 (partials exampleInitialState))))) by reflexivity.
  destruct (harmonicsReducer_field_frame rampCurve combineCurves_spec [] [] _ _ _ Hstep)
    as (_ & _ & Hfreq & _).
  split; [reflexivity|].
  apply Hfreq. intros Heq. discriminate Heq.
Defined.

Lemma curve_mutations_refresh_witness :
  exampleReducer (Some staleState)
    (mkAction CHANGE_FUNDAMENTAL_FREQUENCY (NumberPayload 440%float))
  = Returned (changeFundamentalFrequency rampCurve combineCurves_spec staleState 440%float) /\
  consistent rampCurve combineCurves_spec
    (changeFundamentalFrequency rampCurve combineCurves_spec staleState 440%float).
Proof.
  assert (Hstep :
    harmonicsReducer rampCurve combineCurves_spec [] [] (Some staleState)
      (mkAction CHANGE_FUNDAMENTAL_FREQUENCY (NumberPayload 440%float))
    = Returned (changeFundamentalFrequency rampCurve combineCurves_spec staleState 440%float))
    by reflexivity.
  split; [exact Hstep|].
  apply (curve_mutations_refresh rampCurve combineCurves_spec [] [] _ _ _ Hstep).
  reflexivity.
Defined.

Lemma playState_commutes_witness :
  CHANGE_AMPLITUDE <> START /\ CHANGE_AMPLITUDE <> STOP /\
  dispatch rampCurve combineCurves_spec [] []
    (exampleReducer (Some exampleInitialState) (mkAction START NoPayload))
    (mkAction CHANGE_AMPLITUDE (AmplitudePayload 13 0.5%float))
  = dispatch rampCurve combineCurves_spec [] []
      (exampleReducer (Some exampleInitialState)
         (mkAction CHANGE_AMPLITUDE (AmplitudePayload 13 0.5%float)))
      (mkAction START NoPayload).
Proof.
  assert (H1 : CHANGE_AMPLITUDE <> START) by discriminate.
  assert (H2 : CHANGE_AMPLITUDE <> STOP) by discriminate.
  split; [exact H1|]. split; [exact H2|].
  apply (playState_commutes rampCurve combineCurves_spec [] [] exampleInitialState NoPayload
           (mkAction CHANGE_AMPLITUDE (AmplitudePayload 13 0.5%float)) H1 H2).
Defined.

Lemma masterGain_commutes_witness :
  CHANGE_AMPLITUDE <> CHANGE_MASTER_GAIN /\
  dispatch rampCurve combineCurves_spec [] []
    (exampleReducer (Some exampleInitialState)
       (mkAction CHANGE_MASTER_GAIN (NumberPayload 0.2%float)))
    (mkAction CHANGE_AMPLITUDE (AmplitudePayload 2 0.5%float))
  = dispatch rampCurve combineCurves_spec [] []
      (exampleReducer (Some exampleInitialState)
         (mkAction CHANGE_AMPLITUDE (AmplitudePayload 2 0.5%float)))
      (mkAction CHANGE_MASTER_GAIN (NumberPayload 0.2%float)).
Proof.
  assert (H : CHANGE_AMPLITUDE <> CHANGE_MASTER_GAIN) by discriminate.
  split; [exact H|].
  apply (masterGain_commutes rampCurve combineCurves_spec [] [] exampleInitialState
           0.2%float (mkAction CHANGE_AMPLITUDE (AmplitudePayload 2 0.5%float)) H).
Defined.

Lemma fundamentalFrequency_commutes_witness :
  CHANGE_AMPLITUDE <> CHANGE_FUNDAMENTAL_FREQUENCY /\
  dispatch rampCurve combineCurves_spec [] []
    (exampleReducer (Some exampleInitialState)
       (mkAction CHANGE_FUNDAMENTAL_FREQUENCY (NumberPayload 440%float)))
    (mkAction CHANGE_AMPLITUDE (AmplitudePayload (-1) 0.5%float))
  = dispatch rampCurve combineCurves_spec [] []
      (exampleReducer (Some exampleInitialState)
         (mkAction CHANGE_AMPLITUDE (AmplitudePayload (-1) 0.5%float)))
      (mkAction CHANGE_FUNDAMENTAL_FREQUENCY (NumberPayload 440%float)).
Proof.
  assert (H : CHANGE_AMPLITUDE <> CHANGE_FUNDAMENTAL_FREQUENCY) by discriminate.
  split; [exact H|].
  apply (fundamentalFrequency_commutes rampCurve combineCurves_spec [] []
           exampleInitialState 440%float
           (mkAction CHANGE_AMPLITUDE (AmplitudePayload (-1) 0.5%float)) H).
Defined.

Lemma amplitudes_commute_witness :
  wrapIndex (partials exampleInitialState) (-1) <> wrapIndex (partials exampleInitialState) 2 /\
  dispatch rampCurve combineCurves_spec [] []
    (exampleReducer (Some exampleInitialState)
       (mkAction CHANGE_AMPLITUDE (AmplitudePayload (-1) 0.25%float)))
    (mkAction CHANGE_AMPLITUDE (AmplitudePayload 2 0.5%float))
  = dispatch rampCurve combineCurves_spec [] []
      (exampleReducer (Some exampleInitialState)
         (mkAction CHANGE_AMPLITUDE (AmplitudePayload 2 0.5%float)))
      (mkAction CHANGE_AMPLITUDE (AmplitudePayload (-1) 0.25%float)).
Proof.
  assert (H : wrapIndex (partials exampleInitialState) (-1)
              <> wrapIndex (partials exampleInitialState) 2) by discriminate.
  split; [exact H|].
  apply (amplitudes_commute rampCurve combineCurves_spec [] [] exampleInitialState
           (-1) 2 0.25%float 0.5%float H).
Defined.

Lemma mutation_undone_by_old_value_witness :
  Reachable rampCurve combineCurves_spec [] [] exampleState /\
  dispatch rampCurve combineCurves_spec [] []
    (exampleReducer (Some exampleState)
       (mkAction CHANGE_FUNDAMENTAL_FREQUENCY (NumberPayload 440%float)))
    (mkAction CHANGE_FUNDAMENTAL_FREQUENCY (NumberPayload 261.63%float))
  = Returned exampleState.
Proof.
  split; [exact exampleState_Reachable|].
  apply (mutation_undone_by_old_value rampCurve combineCurves_spec [] [] exampleState
           exampleState_Reachable).
Defined.

Lemma reachable_state_determined_witness :
  Reachable rampCurve combineCurves_spec [] [] exampleState /\
  Reachable rampCurve combineCurves_spec [] [] exampleStateSwapped /\
  exampleState = exampleStateSwapped.
Proof.
  split; [exact exampleState_Reachable|].
  split; [exact exampleStateSwapped_Reachable|].
  apply (reachable_state_determined rampCurve combineCurves_spec [] []
           exampleState exampleStateSwapped
           exampleState_Reachable exampleStateSwapped_Reachable);
    reflexivity.
Defined.

